(** * app.py: the turn processor, the checkpoint renderer and the console loop

    A shallow embedding of [src/app.py].  The program is a console chat
    client: it reads a line, hands it to a prebuilt agent, and for every
    chunk the agent streams back it calls [process_chunks] on the chunk and
    [process_checkpoints] on the checkpoints of the thread.

    What is modelled, and at which boundary:

    - the console is the sequence of calls made to [rich.print], [input] and
      [langgraph_agent.stream], in program order; a "line" of output is one
      call of [rich.print] with the markup text and the style it was given
      (how Rich lays that markup out on the terminal is Rich's business);
    - Python exceptions are a result [Raise e]; nothing in app.py catches
      one, so a [Raise] travels to the top and ends the process;
    - dictionaries are [gmap string _]; [d[k]] raises [KeyError] on a key
      that is absent, [k in d] and [d.get(k, default)] do not;
    - the builtins [eval] and [repr] and the agent runtime are interfaces
      (classes [Builtins] and [Runtime]): every theorem holds for all their
      implementations, the examples use small concrete ones. *)

From stdpp Require Import gmap strings list pretty.

(** ** Python values and results *)

(** What evaluating an argument payload can give back: the values of
    Python's literal syntax that a JSON-shaped payload is made of. *)
#[warnings="-register-all"]
Inductive pyval : Type :=
| PNone
| PBool (b : bool)
| PInt (z : Z)
| PStr (s : string)
| PList (l : list pyval)
| PDict (d : gmap string pyval).

Inductive exn : Type :=
| SyntaxError
| NameError (name : string)
| KeyError (key : string)
| TypeError
| EOFError
| OtherError (cls : string).

Inductive pyres (A : Type) : Type :=
| Ok (a : A)
| Raise (e : exn).
Arguments Ok {A} a.
Arguments Raise {A} e.

(** The two builtins app.py leans on.  [eval] takes the payload text and
    gives a value or raises; it is read as a function of the text (a payload
    that runs code with effects of its own is outside this model).  [repr]
    is what formatting falls back to for a value that is not a [str]. *)
Class Builtins : Type := {
  eval : string -> pyres pyval;
  repr : pyval -> string
}.

(** [d[k]] on a dictionary. *)
Definition getitem {V : Type} (d : gmap string V) (k : string) : pyres V :=
  match d !! k with
  | Some v => Ok v
  | None => Raise (KeyError k)
  end.

(** [k in d]. *)
Definition contains {V : Type} (k : string) (d : gmap string V) : bool :=
  bool_decide (is_Some (d !! k)).

(** [d.get(k, dflt)]. *)
Definition get {V : Type} (d : gmap string V) (k : string) (dflt : V) : V :=
  default dflt (d !! k).

(** [v[k]] on the value [eval] returned: only a dictionary can be indexed
    by a string. *)
Definition subscript (v : pyval) (k : string) : pyres pyval :=
  match v with
  | PDict d => getitem d k
  | _ => Raise TypeError
  end.

(** [f"{v}"]: a [str] is inserted as it is, any other value through its
    [repr]. *)
Definition format_value `{Builtins} (v : pyval) : string :=
  match v with
  | PStr s => s
  | _ => repr v
  end.

(** [f"{i}"] for an identifier of type [Optional[str]]. *)
Definition format_id (i : option string) : string :=
  match i with
  | Some s => s
  | None => "None"
  end.

(** The newline character of the [\n] escapes in the source's literals. *)
Definition NL : string := String (Ascii.ascii_of_nat 10) EmptyString.

(** ** The data app.py receives from the agent framework *)

(** An entry of [additional_kwargs["tool_calls"]]:
    [{"function": {"name": ..., "arguments": ...}, ...}]. *)
Record function_call : Type := {
  name : string;
  arguments : string
}.

Record tool_call : Type := {
  function : function_call
}.

(** The message classes of [langchain_core.messages]. *)
Inductive msg_class : Type :=
| HumanMessage
| AIMessage
| SystemMessage
| ToolMessage
| FunctionMessage
| ChatMessage
| RemoveMessage
| HumanMessageChunk
| AIMessageChunk.

(** [issubclass(c, d)] on those classes. *)
Definition issubclass (c d : msg_class) : bool :=
  match c, d with
  | HumanMessage, HumanMessage | HumanMessageChunk, HumanMessage => true
  | AIMessage, AIMessage | AIMessageChunk, AIMessage => true
  | SystemMessage, SystemMessage | ToolMessage, ToolMessage => true
  | FunctionMessage, FunctionMessage | ChatMessage, ChatMessage => true
  | RemoveMessage, RemoveMessage => true
  | HumanMessageChunk, HumanMessageChunk => true
  | AIMessageChunk, AIMessageChunk => true
  | _, _ => false
  end.

(** A message object.  [additional_kwargs] is a dictionary; the one key
    app.py reads in it is ["tool_calls"], bound to a list of tool calls. *)
Module Message.
Record t : Type := {
  cls : msg_class;
  content : string;
  id : option string;
  additional_kwargs : gmap string (list tool_call)
}.
End Message.

Definition isinstance (m : Message.t) (c : msg_class) : bool :=
  issubclass (Message.cls m) c.

(** A checkpoint dictionary: ['ts'], ['id'] and ["channel_values"], whose
    one channel read by app.py is ["messages"], a list of messages. *)
Module Checkpoint.
Record t : Type := {
  ts : string;
  id : string;
  channel_values : gmap string (list Message.t)
}.
End Checkpoint.

(** The tuple the store lists; app.py reads its [checkpoint] field only. *)
Record checkpoint_tuple : Type := {
  checkpoint : Checkpoint.t
}.

(** ** The console *)

Inductive event : Type :=
| RichPrint (text : string) (style : option string)
| Input (prompt : string)
| Stream (question : string).

(** Computations that write to the console and may raise. *)
Definition M (A : Type) : Type := list event -> list event * pyres A.

Definition ret {A : Type} (a : A) : M A := fun out => (out, Ok a).

Definition bind {A B : Type} (c : M A) (k : A -> M B) : M B :=
  fun out =>
    match c out with
    | (out', Ok a) => k a out'
    | (out', Raise e) => (out', Raise e)
    end.

Definition lift {A : Type} (r : pyres A) : M A := fun out => (out, r).

Declare Scope py_scope.
Delimit Scope py_scope with py.
Notation "x <- c ;; k" := (bind c (fun x => k))
  (at level 100, c at next level, right associativity) : py_scope.
Notation "c ;;; k" := (bind c (fun _ => k))
  (at level 100, right associativity) : py_scope.

(** [rich.print(text, style=style)]. *)
Definition rich_print (text : string) (style : option string) : M unit :=
  fun out => (out ++ [RichPrint text style], Ok tt).

(** [for x in l: body x]. *)
Fixpoint for_each {A : Type} (l : list A) (body : A -> M unit) : M unit :=
  match l with
  | [] => ret tt
  | x :: l' => (body x ;;; for_each l' body)%py
  end.

(** ** process_chunks *)

(** The f-string of the "calling tool" notice. *)
Definition notice_text (tool_name tool_query : string) : string :=
  NL +:+ "The agent is calling the tool [on deep_sky_blue1]" +:+ tool_name
     +:+ "[/on deep_sky_blue1] with the query [on deep_sky_blue1]"
     +:+ tool_query
     +:+ "[/on deep_sky_blue1]. Please wait for the agent's answer[deep_sky_blue1]...[/deep_sky_blue1]".

(** The f-string of the final answer. *)
Definition answer_text (agent_anser : string) : string :=
  NL +:+ "Agent:" +:+ NL +:+ agent_anser.

(** A stream chunk: node name to that node's update, itself a dictionary
    whose ["messages"] entry is the list of messages the node produced. *)
Abbreviation chunk_t := (gmap string (gmap string (list Message.t))).

Section Chunks.
Context `{Builtins}.

(** The body of [for tool_call in tool_calls]. *)
Definition show_tool_call (tool_call : tool_call) : M unit :=
  (let tool_name := name (function tool_call) in
   tool_arguments <- lift (eval (arguments (function tool_call))) ;;
   tool_query <- lift (subscript tool_arguments "query") ;;
   rich_print (notice_text tool_name (format_value tool_query))
              (Some "deep_sky_blue1"))%py.

(** The body of [for message in chunk["agent"]["messages"]]. *)
Definition show_message (message : Message.t) : M unit :=
  (if contains "tool_calls" (Message.additional_kwargs message) then
     tool_calls <- lift (getitem (Message.additional_kwargs message) "tool_calls") ;;
     for_each tool_calls show_tool_call
   else
     let agent_anser := Message.content message in
     rich_print (answer_text agent_anser) (Some "black on white"))%py.

Definition process_chunks (chunk : chunk_t) : M unit :=
  (if contains "agent" chunk then
     agent <- lift (getitem chunk "agent") ;;
     messages <- lift (getitem agent "messages") ;;
     for_each messages show_message
   else ret tt)%py.
End Chunks.

(** ** process_checkpoints *)

Definition separator_top : string :=
  NL +:+ "==========================================================" +:+ NL.

Definition separator_bottom : string :=
  "==========================================================".

Definition header_text : string := "[white]Checkpoint:[/white]".

Definition timestamp_text (ts : string) : string :=
  "[black]Timestamp: " +:+ ts +:+ "[/black]".

Definition checkpoint_id_text (i : string) : string :=
  "[black]Checkpoint ID: " +:+ i +:+ "[/black]".

Definition role_text (label : string) (message : Message.t) : string :=
  "[bright_magenta]" +:+ label +:+ ": " +:+ Message.content message
    +:+ "[/bright_magenta] [bright_cyan](Message ID: "
    +:+ format_id (Message.id message) +:+ ")[/bright_cyan]".

(** The body of [for message in messages]. *)
Definition print_message (message : Message.t) : M unit :=
  if isinstance message HumanMessage then
    rich_print (role_text "User" message) None
  else if isinstance message AIMessage then
    rich_print (role_text "Agent" message) None
  else ret tt.

(** The body of [for idx, checkpoint_tuple in enumerate(checkpoints)]. *)
Definition print_checkpoint (checkpoint_tuple : checkpoint_tuple) : M unit :=
  (let checkpoint := checkpoint checkpoint_tuple in
   let messages := get (Checkpoint.channel_values checkpoint) "messages" [] in
   rich_print header_text None ;;;
   rich_print (timestamp_text (Checkpoint.ts checkpoint)) None ;;;
   rich_print (checkpoint_id_text (Checkpoint.id checkpoint)) None ;;;
   for_each messages print_message ;;;
   rich_print "" None)%py.

Definition process_checkpoints (checkpoints : list checkpoint_tuple) : M unit :=
  (rich_print separator_top None ;;;
   for_each checkpoints print_checkpoint ;;;
   rich_print separator_bottom None)%py.

(** ** The console loop *)

(** The agent runtime, as app.py uses it.  [stream store question] is one
    call of [langgraph_agent.stream] on the fixed thread: the chunks it
    yields, each with the store as it is when the chunk is handed over, and
    how the generator ends (the store it leaves, or the exception it
    raises).  [memory_list] is [memory.list] on the fixed thread. *)
Class Runtime : Type := {
  Store : Type;
  stream : Store -> string -> list (chunk_t * Store) * pyres Store;
  memory_list : Store -> list checkpoint_tuple
}.

(** [str.lower], on the ASCII letters.  No character outside ASCII has one
    of q, u, i, t as its lower case, so the comparison with the sentinel
    below is decided by the ASCII letters alone. *)
Definition lower_ascii (c : Ascii.ascii) : Ascii.ascii :=
  let n := Ascii.nat_of_ascii c in
  if (65 <=? n) && (n <=? 90) then Ascii.ascii_of_nat (n + 32) else c.

Fixpoint lower (s : string) : string :=
  match s with
  | EmptyString => EmptyString
  | String c s' => String (lower_ascii c) (lower s')
  end.

Definition prompt : string := NL +:+ "User:" +:+ NL.

Definition farewell : string :=
  NL +:+ "Agent:" +:+ NL +:+ "Have a nice day! :wave:" +:+ NL.

Definition emit (e : event) : M unit := fun out => (out ++ [e], Ok tt).

Section Console.
Context `{Builtins} `{Runtime}.

(** The body of [for chunk in langgraph_agent.stream(...)]; [st] is the
    store at the time the chunk is yielded. *)
Definition show_step (step : chunk_t * Store) : M unit :=
  (let chunk := fst step in
   process_chunks chunk ;;;
   let checkpoints := memory_list (snd step) in
   process_checkpoints checkpoints)%py.

(** One pass of the loop body after the sentinel test. *)
Definition turn (st : Store) (user_question : string) : M Store :=
  (let run := stream st user_question in
   emit (Stream user_question) ;;;
   for_each (fst run) show_step ;;;
   lift (snd run))%py.

(** [while True: ...] on the lines standard input holds; [input] raises
    [EOFError] when there is none left.  A result [Ok tt] is the [break]:
    the module ends and the interpreter exits normally. *)
Fixpoint console_loop (stdin : list string) (st : Store) : M unit :=
  match stdin with
  | [] => (emit (Input prompt) ;;; lift (Raise EOFError))%py
  | user_question :: stdin' =>
      (emit (Input prompt) ;;;
       if String.eqb (lower user_question) "quit" then
         rich_print farewell (Some "black on white")
       else
         st' <- turn st user_question ;;
         console_loop stdin' st')%py
  end.
End Console.

(** ** Concrete builtins, data and runtime for the examples *)

(** The double quote of JSON text. *)
Definition DQ : string := String (Ascii.ascii_of_nat 34) EmptyString.

(** The JSON object with the one member query, bound to the text
    weather in Paris, as a provider sends it. *)
Definition payload_paris : string :=
  "{" +:+ DQ +:+ "query" +:+ DQ +:+ ": " +:+ DQ +:+ "weather in Paris" +:+ DQ +:+ "}".

(** The same payload cut short before its closing quote and brace. *)
Definition payload_cut : string :=
  "{" +:+ DQ +:+ "query" +:+ DQ +:+ ": " +:+ DQ +:+ "weather in Paris".

(** CPython's [eval] on the payload texts of the examples.  Every other
    text gets a placeholder exception: this table is not a model of [eval]
    at large, which is why the theorems quantify over the builtins. *)
Definition sample_eval (s : string) : pyres pyval :=
  if String.eqb s payload_paris then
    Ok (PDict {[ "query" := PStr "weather in Paris" ]})
  else if String.eqb s "{'query': 'rocq prover', 'max_results': 3}" then
    Ok (PDict (<[ "max_results" := PInt 3 ]> {[ "query" := PStr "rocq prover" ]}))
  else if String.eqb s "{'query': 42}" then
    Ok (PDict {[ "query" := PInt 42 ]})
  else if String.eqb s "{'q': 'weather'}" then
    Ok (PDict {[ "q" := PStr "weather" ]})
  else if String.eqb s "'weather'" then
    Ok (PStr "weather")
  else if String.eqb s payload_cut then
    Raise SyntaxError
  else if String.eqb s "{'query': null}" then
    Raise (NameError "null")
  else Raise (OtherError "payload outside the examples").

(** [repr] on the scalars; a placeholder text on the rest. *)
Definition sample_repr (v : pyval) : string :=
  match v with
  | PNone => "None"
  | PBool true => "True"
  | PBool false => "False"
  | PInt z => pretty z
  | _ => "<repr outside the examples>"
  end.

#[local] Instance sample_builtins : Builtins :=
  {| eval := sample_eval; repr := sample_repr |}.

Definition search_call (payload : string) : tool_call :=
  {| function := {| name := "tavily_search_results_json"; arguments := payload |} |}.

(** An assistant message that asks for the given tool calls. *)
Definition calling (tcs : list tool_call) : Message.t :=
  {| Message.cls := AIMessage; Message.content := "";
     Message.id := Some "run-7"; Message.additional_kwargs := {[ "tool_calls" := tcs ]} |}.


Definition asking (text : string) : Message.t :=
  {| Message.cls := HumanMessage; Message.content := text;
     Message.id := Some "m1"; Message.additional_kwargs := ∅ |}.


Definition agent_chunk (ms : list Message.t) : chunk_t :=
  {[ "agent" := {[ "messages" := ms ]} ]}.


Definition snapshot (ts i : string) (ms : list Message.t) : checkpoint_tuple :=
  {| checkpoint := {| Checkpoint.ts := ts; Checkpoint.id := i;
                      Checkpoint.channel_values := {[ "messages" := ms ]} |} |}.




(** A scripted runtime: the model answers every question by asking for one
    search whose payload is the question text itself; the store is the list
    of checkpoints, newest first. *)
#[local] Instance scripted_runtime : Runtime :=
  {| Store := list checkpoint_tuple;
     stream st q :=
       let st' := snapshot "2024-05-01T10:00:00+00:00" "1ef07a" [asking q] :: st in
       ([(agent_chunk [calling [search_call q]], st')], Ok st');
     memory_list st := st |}.

(** ** Vocabulary of the statements *)

(** What a computation writes when started on an empty console, and how it
    ends. *)
Definition output_of {A : Type} (c : M A) : list event := fst (c []).
Definition result_of {A : Type} (c : M A) : pyres A := snd (c []).

(** [writes c evs r]: whatever the console holds, [c] appends [evs] to it
    and ends with [r]. *)
Definition writes {A : Type} (c : M A) (evs : list event) (r : pyres A) : Prop :=
  forall out, c out = (out ++ evs, r).

(** [emits P c]: [c] appends events that all satisfy [P], and what it
    appends and how it ends do not depend on the console it starts from. *)
Definition emits {A : Type} (P : event -> Prop) (c : M A) : Prop :=
  exists evs r, writes c evs r /\ Forall P evs.

Definition is_print (e : event) : Prop :=
  match e with
  | RichPrint _ _ => True
  | _ => False
  end.




(** Equality with the sentinel when case is ignored, letter by letter:
    [either_case l c] says that [c] is the lower-case letter [l] or its
    capital. *)
Definition either_case (letter : string) (c : Ascii.ascii) : bool :=
  match letter with
  | String l EmptyString =>
      Ascii.eqb c l || Ascii.eqb c (Ascii.ascii_of_nat (Ascii.nat_of_ascii l - 32))
  | _ => false
  end.

Definition quit_ignoring_case (s : string) : bool :=
  match s with
  | String a (String b (String c (String d EmptyString))) =>
      either_case "q" a && either_case "u" b
      && either_case "i" c && either_case "t" d
  | _ => false
  end.





(** The query of a tool call: its payload evaluated, then indexed. *)
Definition payload_query `{Builtins} (tc : tool_call) : pyres pyval :=
  match eval (arguments (function tc)) with
  | Ok tool_arguments => subscript tool_arguments "query"
  | Raise e => Raise e
  end.

(** The notice printed for a tool call whose query is [q]. *)
Definition notice_of `{Builtins} (tc : tool_call) (q : pyval) : event :=
  RichPrint (notice_text (name (function tc)) (format_value q))
            (Some "deep_sky_blue1").


(** The lines a checkpoint's messages and a checkpoint give rise to. *)
Definition message_lines (m : Message.t) : list event :=
  output_of (print_message m).

Definition section_lines (c : checkpoint_tuple) : list event :=
  output_of (print_checkpoint c).

Definition section_head (c : checkpoint_tuple) : list event :=
  [RichPrint header_text None;
   RichPrint (timestamp_text (Checkpoint.ts (checkpoint c))) None;
   RichPrint (checkpoint_id_text (Checkpoint.id (checkpoint c))) None].

(** ** Vocabulary of the further properties *)








(** The questions the agent runtime was started on, in order. *)
Definition questions (evs : list event) : list string :=
  omap (fun e => match e with Stream q => Some q | _ => None end) evs.





(** * Properties *)

(** ** The console monad *)

Section Writes.
Context {A B : Type}.

Lemma writes_ret (a : A) : writes (ret a) [] (Ok a).
Proof. intros out. unfold ret. by rewrite app_nil_r. Qed.

Lemma writes_lift (r : pyres A) : writes (lift r) [] r.
Proof. intros out. unfold lift. by rewrite app_nil_r. Qed.

Lemma writes_bind (c : M A) (k : A -> M B) evs a evs' r :
  writes c evs (Ok a) -> writes (k a) evs' r ->
  writes (bind c k) (evs ++ evs') r.
Proof.
  intros Hc Hk out. unfold bind. rewrite Hc, Hk. by rewrite app_assoc.
Qed.

Lemma writes_bind_raise (c : M A) (k : A -> M B) evs e :
  writes c evs (Raise e) -> writes (bind c k) evs (Raise e).
Proof. intros Hc out. unfold bind. by rewrite Hc. Qed.

Lemma writes_run (c : M A) evs r :
  writes c evs r -> output_of c = evs /\ result_of c = r.
Proof.
  intros Hc. unfold output_of, result_of. by rewrite (Hc []).
Qed.

Lemma writes_inj (c : M A) evs evs' r r' :
  writes c evs r -> writes c evs' r' -> evs = evs' /\ r = r'.
Proof.
  intros H1 H2. specialize (H1 []). specialize (H2 []).
  rewrite H1 in H2. simpl in H2. by inversion H2.
Qed.

Lemma emits_bind (P : event -> Prop) (c : M A) (k : A -> M B) :
  emits P c -> (forall a, emits P (k a)) -> emits P (bind c k).
Proof.
  intros (evs & [a | e] & Hc & HP) Hk.
  - destruct (Hk a) as (evs' & r & Hka & HP').
    exists (evs ++ evs'), r. split.
    + by eapply writes_bind.
    + by apply Forall_app.
  - exists evs, (Raise e). split; [by apply writes_bind_raise | done].
Qed.

Lemma emits_weaken (P Q : event -> Prop) (c : M A) :
  (forall e, P e -> Q e) -> emits P c -> emits Q c.
Proof.
  intros HPQ (evs & r & Hc & HP). exists evs, r. split; [done |].
  eapply Forall_impl; eauto.
Qed.

Lemma emits_ret (P : event -> Prop) (a : A) : emits P (ret a).
Proof. exists [], (Ok a). split; [apply writes_ret | constructor]. Qed.

Lemma emits_lift (P : event -> Prop) (r : pyres A) : emits P (lift r).
Proof. exists [], r. split; [apply writes_lift | constructor]. Qed.

End Writes.

Lemma writes_rich_print text style :
  writes (rich_print text style) [RichPrint text style] (Ok tt).
Proof. by intros out. Qed.

Lemma writes_emit e : writes (emit e) [e] (Ok tt).
Proof. by intros out. Qed.

Lemma emits_rich_print (P : event -> Prop) text style :
  P (RichPrint text style) -> emits P (rich_print text style).
Proof.
  intros HP. exists [RichPrint text style], (Ok tt).
  split; [apply writes_rich_print | by repeat constructor].
Qed.

Section ForEach.
Context {A : Type} (body : A -> M unit).

Lemma writes_for_each (f : A -> list event) (l : list A) :
  Forall (fun x => writes (body x) (f x) (Ok tt)) l ->
  writes (for_each l body) (flat_map f l) (Ok tt).
Proof.
  induction 1 as [| x l Hx _ IH]; simpl.
  - apply writes_ret.
  - by eapply writes_bind.
Qed.


Lemma emits_for_each (P : event -> Prop) (l : list A) :
  (forall x, emits P (body x)) -> emits P (for_each l body).
Proof.
  intros Hb. induction l as [| x l IH]; simpl.
  - apply emits_ret.
  - apply emits_bind; auto.
Qed.
End ForEach.

(** ** Dictionaries *)

Lemma contains_Some {V : Type} (d : gmap string V) k v :
  d !! k = Some v -> contains k d = true /\ getitem d k = Ok v.
Proof.
  intros Hk. unfold contains, getitem. rewrite Hk. split; [| done].
  apply bool_decide_eq_true. by eexists.
Qed.

Lemma contains_None {V : Type} (d : gmap string V) k :
  d !! k = None -> contains k d = false.
Proof.
  intros Hk. unfold contains. rewrite Hk. apply bool_decide_eq_false.
  by intros [v Hv].
Qed.

(** ** process_chunks *)

Section ChunkLemmas.
Context `{Builtins}.

Lemma show_tool_call_ok tc q :
  payload_query tc = Ok q ->
  writes (show_tool_call tc) [notice_of tc q] (Ok tt).
Proof.
  unfold payload_query, show_tool_call, notice_of, bind, lift.
  intros Hq out. destruct (eval (arguments (function tc))); [| done].
  rewrite Hq. by unfold rich_print.
Qed.

Lemma show_tool_call_raise tc e :
  payload_query tc = Raise e ->
  writes (show_tool_call tc) [] (Raise e).
Proof.
  unfold payload_query, show_tool_call, bind, lift.
  intros Hq out. rewrite app_nil_r.
  destruct (eval (arguments (function tc))); [by rewrite Hq | congruence].
Qed.

Lemma show_tool_call_emits tc : emits is_print (show_tool_call tc).
Proof.
  destruct (payload_query tc) as [q | e] eqn:Hq.
  - exists [notice_of tc q], (Ok tt).
    split; [by apply show_tool_call_ok | by repeat constructor].
  - exists [], (Raise e). split; [by apply show_tool_call_raise | constructor].
Qed.

Lemma show_message_calls m tcs out :
  Message.additional_kwargs m !! "tool_calls" = Some tcs ->
  show_message m out = for_each tcs show_tool_call out.
Proof.
  intros Hk. unfold show_message.
  destruct (contains_Some _ _ _ Hk) as [-> ->]. done.
Qed.

Lemma show_message_answer m :
  Message.additional_kwargs m !! "tool_calls" = None ->
  writes (show_message m)
         [RichPrint (answer_text (Message.content m)) (Some "black on white")]
         (Ok tt).
Proof.
  intros Hk out. unfold show_message. rewrite (contains_None _ _ Hk).
  apply writes_rich_print.
Qed.

Lemma show_message_emits m : emits is_print (show_message m).
Proof.
  destruct (Message.additional_kwargs m !! "tool_calls") as [tcs |] eqn:Hk.
  - destruct (emits_for_each show_tool_call is_print tcs show_tool_call_emits)
      as (evs & r & Hw & HP).
    exists evs, r. split; [| done].
    intros out. rewrite (show_message_calls _ _ _ Hk). apply Hw.
  - eexists _, _. split; [by apply show_message_answer | by repeat constructor].
Qed.

Lemma process_chunks_agent (chunk : chunk_t) agent ms out :
  chunk !! "agent" = Some agent ->
  agent !! "messages" = Some ms ->
  process_chunks chunk out = for_each ms show_message out.
Proof.
  intros Ha Hm. unfold process_chunks.
  destruct (contains_Some _ _ _ Ha) as [-> ->].
  destruct (contains_Some _ _ _ Hm) as [_ Hg].
  unfold bind at 1, lift at 1. unfold bind, lift. by rewrite Hg.
Qed.

Lemma process_chunks_emits (chunk : chunk_t) : emits is_print (process_chunks chunk).
Proof.
  unfold process_chunks. destruct (contains "agent" chunk); [| apply emits_ret].
  apply emits_bind; [apply emits_lift |]. intros agent.
  apply emits_bind; [apply emits_lift |]. intros ms.
  apply emits_for_each, show_message_emits.
Qed.

Lemma for_each_one {A : Type} (body : A -> M unit) x out :
  for_each [x] body out = body x out.
Proof.
  simpl. unfold bind, ret. by destruct (body x out) as [out' [[] | e]].
Qed.



End ChunkLemmas.

Section ChunkClaims.
Context `{Builtins}.




(** C9.  An agent-stage message whose extra metadata binds "tool_calls"
    to the empty list makes [process_chunks] print nothing: neither a
    "calling tool" notice nor a final answer.  The branch is taken on the
    key being there, not on the list having entries. *)
Theorem process_chunks_empty_tool_calls
    (chunk : chunk_t) (agent : gmap string (list Message.t))
    (message : Message.t) (out : list event) :
  chunk !! "agent" = Some agent ->
  agent !! "messages" = Some [message] ->
  Message.additional_kwargs message !! "tool_calls" = Some [] ->
  show_message message out = (out, Ok tt)
  /\ process_chunks chunk out = (out, Ok tt).
Proof.
  intros Ha Hm Hk.
  assert (show_message message out = (out, Ok tt)) as Hs
    by by rewrite (show_message_calls _ _ _ Hk).
  split; [done |].
  by rewrite (process_chunks_agent _ _ _ _ Ha Hm), for_each_one.
Qed.
End ChunkClaims.

(** ** process_checkpoints *)

Lemma isinstance_human_ai m :
  isinstance m HumanMessage = true -> isinstance m AIMessage = false.
Proof. unfold isinstance. by destruct (Message.cls m). Qed.

Lemma print_message_writes m :
  writes (print_message m) (message_lines m) (Ok tt).
Proof.
  intros out. unfold message_lines, output_of, print_message.
  destruct (isinstance m HumanMessage); [done |].
  destruct (isinstance m AIMessage); [done |].
  unfold ret. simpl. by rewrite app_nil_r.
Qed.

Lemma message_lines_cases m :
  message_lines m =
    match Message.cls m with
    | HumanMessage | HumanMessageChunk => [RichPrint (role_text "User" m) None]
    | AIMessage | AIMessageChunk => [RichPrint (role_text "Agent" m) None]
    | _ => []
    end.
Proof.
  unfold message_lines, output_of, print_message, isinstance.
  by destruct (Message.cls m).
Qed.


Lemma print_checkpoint_writes c :
  writes (print_checkpoint c)
    (section_head c
       ++ flat_map message_lines
            (get (Checkpoint.channel_values (checkpoint c)) "messages" [])
       ++ [RichPrint "" None])
    (Ok tt).
Proof.
  unfold print_checkpoint, section_head.
  eapply (writes_bind _ _ [_]); [apply writes_rich_print |].
  eapply (writes_bind _ _ [_]); [apply writes_rich_print |].
  eapply (writes_bind _ _ [_]); [apply writes_rich_print |].
  eapply writes_bind; [| apply writes_rich_print].
  apply writes_for_each, Forall_forall. intros m _. apply print_message_writes.
Qed.

Lemma section_lines_eq c :
  section_lines c =
    section_head c
      ++ flat_map message_lines
           (get (Checkpoint.channel_values (checkpoint c)) "messages" [])
      ++ [RichPrint "" None].
Proof.
  unfold section_lines. by destruct (writes_run _ _ _ (print_checkpoint_writes c)).
Qed.

Lemma process_checkpoints_writes cps :
  writes (process_checkpoints cps)
    (RichPrint separator_top None
       :: flat_map section_lines cps ++ [RichPrint separator_bottom None])
    (Ok tt).
Proof.
  unfold process_checkpoints.
  eapply (writes_bind _ _ [_]); [apply writes_rich_print |].
  eapply writes_bind; [| apply writes_rich_print].
  apply writes_for_each, Forall_forall. intros c _.
  unfold section_lines. intros out.
  rewrite (print_checkpoint_writes c out).
  by destruct (writes_run _ _ _ (print_checkpoint_writes c)) as [-> _].
Qed.

Lemma process_checkpoints_emits cps : emits is_print (process_checkpoints cps).
Proof.
  eexists _, _. split; [apply process_checkpoints_writes |].
  constructor; [done |]. apply Forall_app. split; [| by repeat constructor].
  induction cps as [| c cps IH]; simpl; [constructor |].
  apply Forall_app. split; [| done].
  rewrite section_lines_eq. unfold section_head.
  repeat (constructor; [done |]).
  apply Forall_app. split; [| by repeat constructor].
  induction (get _ _ _) as [| m ms IHm]; simpl; [constructor |].
  apply Forall_app. split; [| done].
  rewrite message_lines_cases. destruct (Message.cls m); by repeat constructor.
Qed.









(** ** The console loop *)

(** The agent runtime is never started on a line that reads as the
    sentinel. *)
Definition no_stream_on_quit (e : event) : Prop :=
  forall q, e = Stream q -> lower q <> "quit".

Lemma lower_ascii_letter c :
  (lower_ascii c = Ascii.ascii_of_nat 113 <-> either_case "q" c = true)
  /\ (lower_ascii c = Ascii.ascii_of_nat 117 <-> either_case "u" c = true)
  /\ (lower_ascii c = Ascii.ascii_of_nat 105 <-> either_case "i" c = true)
  /\ (lower_ascii c = Ascii.ascii_of_nat 116 <-> either_case "t" c = true).
Proof.
  destruct c as [[] [] [] [] [] [] [] []]; vm_compute;
    repeat split; intros; (reflexivity || discriminate).
Qed.

(** The test of the loop, [user_question.lower() == "quit"], holds exactly
    of the sixteen spellings of the sentinel. *)
Lemma lower_quit_iff s :
  lower s = "quit" <-> quit_ignoring_case s = true.
Proof.
  destruct s as [| a [| b [| c [| d [| e s]]]]]; simpl;
    try (split; intros; discriminate).
  destruct (lower_ascii_letter a) as (Ha & _ & _ & _).
  destruct (lower_ascii_letter b) as (_ & Hb & _ & _).
  destruct (lower_ascii_letter c) as (_ & _ & Hc & _).
  destruct (lower_ascii_letter d) as (_ & _ & _ & Hd).
  rewrite !andb_true_iff, <- Ha, <- Hb, <- Hc, <- Hd. split.
  - intros [= -> -> -> ->]. done.
  - intros [[[-> ->] ->] ->]. done.
Qed.

Section ConsoleLemmas.
Context `{Builtins} `{Runtime}.

Lemma show_step_emits step : emits is_print (show_step step).
Proof.
  unfold show_step. apply emits_bind; [apply process_chunks_emits |].
  intros _. apply process_checkpoints_emits.
Qed.

Lemma is_print_no_stream e : is_print e -> no_stream_on_quit e.
Proof. intros He q ->. done. Qed.

Lemma emits_emit (P : event -> Prop) e : P e -> emits P (emit e).
Proof.
  intros HP. exists [e], (Ok tt).
  split; [apply writes_emit | by repeat constructor].
Qed.

Lemma turn_emits st q :
  lower q <> "quit" -> emits no_stream_on_quit (turn st q).
Proof.
  intros Hq. unfold turn.
  apply emits_bind; [apply emits_emit; by intros q' [= <-] |]. intros _.
  apply emits_bind; [| intros _; apply emits_lift].
  apply emits_for_each. intros step.
  eapply emits_weaken; [apply is_print_no_stream | apply show_step_emits].
Qed.

Lemma console_loop_emits stdin st :
  emits no_stream_on_quit (console_loop stdin st).
Proof.
  revert st. induction stdin as [| q stdin IH]; intros st; simpl.
  - apply emits_bind; [by apply emits_emit | intros _; apply emits_lift].
  - apply emits_bind; [by apply emits_emit |]. intros _.
    destruct (String.eqb_spec (lower q) "quit") as [Hq | Hq].
    + by apply emits_rich_print.
    + apply emits_bind; [by apply turn_emits | done].
Qed.



(** C4.  A line that equals "quit" when case is ignored ends the loop: after
    the prompt the farewell is printed and the loop stops normally, with
    no call of the agent runtime and without reading further; and in no
    session, at no turn, is the agent runtime started on such a line. *)
Theorem console_loop_quit
    (user_question : string) (stdin : list string) (st : Store)
    (out : list event) :
  quit_ignoring_case user_question = true ->
  console_loop (user_question :: stdin) st out
  = (out ++ [Input (NL +:+ "User:" +:+ NL);
             RichPrint (NL +:+ "Agent:" +:+ NL +:+ "Have a nice day! :wave:" +:+ NL)
                       (Some "black on white")],
     Ok tt)
  /\ forall stdin' st' out',
       exists evs r,
         console_loop stdin' st' out' = (out' ++ evs, r)
         /\ Stream user_question ∉ evs.
Proof.
  intros Hq. apply lower_quit_iff in Hq. split.
  - simpl. unfold bind, emit. rewrite Hq. simpl.
    unfold rich_print. by rewrite <- app_assoc.
  - intros stdin' st' out'.
    destruct (console_loop_emits stdin' st') as (evs & r & Hw & HP).
    exists evs, r. split; [apply Hw |].
    intros Hin. rewrite Forall_forall in HP.
    by apply (HP _ Hin user_question).
Qed.

End ConsoleLemmas.

(** ** Further properties of process_chunks *)

Section ChunkFurther.
Context `{Builtins}.







(** X3.  An agent-stage update that has no "messages" entry makes
    [process_chunks] raise KeyError on that key, with nothing printed. *)
Theorem process_chunks_missing_messages
    (chunk : chunk_t) (agent : gmap string (list Message.t)) (out : list event) :
  chunk !! "agent" = Some agent ->
  agent !! "messages" = None ->
  process_chunks chunk out = (out, Raise (KeyError "messages")).
Proof.
  intros Ha Hm. unfold process_chunks.
  destruct (contains_Some _ _ _ Ha) as [-> ->].
  unfold bind, lift, getitem. by rewrite Hm.
Qed.




End ChunkFurther.

(** ** Further properties of process_checkpoints *)




(** ** Further properties of the console loop *)

Section ConsoleFurther.
Context `{Builtins} `{Runtime}.

Lemma quit_test q :
  String.eqb (lower q) "quit" = quit_ignoring_case q.
Proof.
  destruct (String.eqb_spec (lower q) "quit") as [Hq | Hq].
  - symmetry. by apply lower_quit_iff.
  - destruct (quit_ignoring_case q) eqn:Hc; [| done].
    by apply lower_quit_iff in Hc.
Qed.

Lemma console_loop_cons q stdin st out :
  console_loop (q :: stdin) st out
  = if quit_ignoring_case q then
      (out ++ [Input prompt; RichPrint farewell (Some "black on white")], Ok tt)
    else
      bind (turn st q) (fun st' => console_loop stdin st') (out ++ [Input prompt]).
Proof.
  simpl. unfold bind at 1, emit at 1. rewrite quit_test.
  destruct (quit_ignoring_case q); [| done].
  unfold rich_print. by rewrite <- app_assoc.
Qed.

Lemma turn_stateless st q :
  exists evs r, writes (turn st q) (Stream q :: evs) r /\ Forall is_print evs.
Proof.
  unfold turn.
  assert (emits is_print
            (bind (for_each (stream st q).1 show_step)
                  (fun _ => lift (stream st q).2))) as (evs & r & Hw & HP).
  { apply emits_bind; [| intros _; apply emits_lift].
    apply emits_for_each, show_step_emits. }
  exists evs, r. split; [| done].
  eapply (writes_bind _ _ [_]); [apply writes_emit | done].
Qed.

Lemma questions_prints evs : Forall is_print evs -> questions evs = [].
Proof.
  induction 1 as [| e evs He _ IH]; [done |].
  by destruct e.
Qed.


(** X7.  The loop ends normally only through the sentinel: when a session
    ends without an exception, standard input held a line spelling quit,
    no line before it did, and the farewell is the last thing printed. *)
Theorem console_loop_normal_exit
    (stdin : list string) (st : Store) (out out' : list event) :
  console_loop stdin st out = (out', Ok tt) ->
  exists pre q post evs,
    stdin = pre ++ q :: post
    /\ quit_ignoring_case q = true
    /\ Forall (fun l => quit_ignoring_case l = false) pre
    /\ out' = out ++ evs ++ [RichPrint farewell (Some "black on white")].
Proof.
  revert st out. induction stdin as [| l stdin IH]; intros st out Hrun.
  - simpl in Hrun. unfold bind, emit, lift in Hrun. discriminate.
  - rewrite console_loop_cons in Hrun.
    destruct (quit_ignoring_case l) eqn:Hl.
    + injection Hrun as <-. exists [], l, stdin, [Input prompt].
      by repeat split.
    + destruct (turn_stateless st l) as (evs & r & Hw & _).
      unfold bind in Hrun. rewrite Hw in Hrun.
      destruct r as [st' | e]; [| discriminate].
      apply IH in Hrun as (pre & q & post & evs' & -> & Hq & Hpre & ->).
      exists (l :: pre), q, post, (Input prompt :: Stream l :: evs ++ evs').
      repeat split; [done | by constructor |].
      rewrite <- !app_assoc. simpl. by rewrite <- ?app_assoc.
Qed.

(** X8.  What stands on standard input after the first line spelling quit
    is never read: the session is the same whatever follows that line. *)
Theorem console_loop_ignores_after_quit
    (pre post : list string) (q : string) (st : Store) (out : list event) :
  quit_ignoring_case q = true ->
  console_loop (pre ++ q :: post) st out = console_loop (pre ++ [q]) st out.
Proof.
  intros Hq. revert st out. induction pre as [| l pre IH]; intros st out.
  - simpl app. by rewrite !console_loop_cons, Hq.
  - simpl app. rewrite !console_loop_cons.
    destruct (quit_ignoring_case l); [done |].
    unfold bind. destruct (turn st l _) as [out1 [st' | e]]; [apply IH | done].
Qed.

(** X9.  Every line that does not spell quit, the empty line and a line
    with blanks around the word included, is handed to the agent runtime
    as it was typed: right after the prompt the stream is started on that
    very text. *)
Theorem console_loop_passes_line_verbatim
    (user_question : string) (stdin : list string) (st : Store)
    (out : list event) :
  quit_ignoring_case user_question = false ->
  exists evs r,
    console_loop (user_question :: stdin) st out
    = (out ++ Input prompt :: Stream user_question :: evs, r).
Proof.
  intros Hq. rewrite console_loop_cons, Hq.
  destruct (turn_stateless st user_question) as (evs & r & Hw & _).
  unfold bind. rewrite Hw. destruct r as [st' | e].
  - destruct (console_loop_emits stdin st') as (evs' & r' & Hw' & _).
    exists (evs ++ evs'), r'. rewrite Hw'.
    f_equal. rewrite <- !app_assoc. simpl. by rewrite <- ?app_assoc.
  - exists evs, (Raise e). f_equal. by rewrite <- !app_assoc.
Qed.



(** X13.  The agent runtime is started on the lines of standard input in
    the order they were typed, once for each line, none skipped and none
    repeated, up to the point where the session ends; none of those lines
    spells quit. *)
Theorem console_loop_turn_order
    (stdin : list string) (st : Store) (out : list event) :
  exists evs r,
    console_loop stdin st out = (out ++ evs, r)
    /\ questions evs `prefix_of` stdin
    /\ Forall (fun q => quit_ignoring_case q = false) (questions evs).
Proof.
  revert st out. induction stdin as [| l stdin IH]; intros st out.
  - exists [Input prompt], (Raise EOFError). repeat split; [| constructor].
    by exists [].
  - rewrite console_loop_cons. destruct (quit_ignoring_case l) eqn:Hl.
    + eexists _, _. repeat split; [| constructor]. by eexists.
    + destruct (turn_stateless st l) as (evs & r & Hw & HP).
      unfold bind. rewrite Hw.
      assert (questions (Input prompt :: Stream l :: evs) = [l]) as Hqs.
      { unfold questions. simpl. f_equal. by apply questions_prints. }
      destruct r as [st' | e].
      * destruct (IH st' ((out ++ [Input prompt]) ++ Stream l :: evs))
          as (evs' & r' & -> & Hpre & Hnq).
        exists ((Input prompt :: Stream l :: evs) ++ evs'), r'.
        assert (questions ((Input prompt :: Stream l :: evs) ++ evs')
                = l :: questions evs') as ->.
        { unfold questions in *. by rewrite omap_app, Hqs. }
        repeat split.
        -- f_equal. rewrite <- !app_assoc. simpl. by rewrite <- ?app_assoc.
        -- by apply prefix_cons.
        -- by constructor.
      * exists (Input prompt :: Stream l :: evs), (Raise e). rewrite Hqs.
        repeat split.
        -- f_equal. by rewrite <- !app_assoc.
        -- by apply prefix_cons, prefix_nil.
        -- by repeat constructor.
Qed.
End ConsoleFurther.

(** ** The statements at concrete inputs *)

Example lower_quit_variants :
  lower "QUIT" = "quit" /\ lower "Quit" = "quit" /\ lower "quit" = "quit"
  /\ lower "quit " <> "quit" /\ lower "exit" <> "quit".
Proof. repeat split; done. Qed.

(** The spec's own example: a user message with content Hello and
    identifier m1 gives one line saying so. *)
Example hello_m1 :
  process_checkpoints [snapshot "2024-05-01T10:00:00+00:00" "1ef07a" [asking "Hello"]] []
  = ([RichPrint separator_top None;
      RichPrint "[white]Checkpoint:[/white]" None;
      RichPrint "[black]Timestamp: 2024-05-01T10:00:00+00:00[/black]" None;
      RichPrint "[black]Checkpoint ID: 1ef07a[/black]" None;
      RichPrint "[bright_magenta]User: Hello[/bright_magenta] [bright_cyan](Message ID: m1)[/bright_cyan]" None;
      RichPrint "" None;
      RichPrint separator_bottom None],
     Ok tt).
Proof. reflexivity. Qed.





Lemma console_loop_quit_witness :
  console_loop (H := sample_builtins) (H0 := scripted_runtime)
    ("QUIT" :: [payload_paris]) [] []
  = ([] ++ [Input (NL +:+ "User:" +:+ NL);
            RichPrint (NL +:+ "Agent:" +:+ NL +:+ "Have a nice day! :wave:" +:+ NL)
                      (Some "black on white")],
     Ok tt)
  /\ forall stdin' st' out',
       exists evs r,
         console_loop (H := sample_builtins) (H0 := scripted_runtime) stdin' st' out'
         = (out' ++ evs, r)
         /\ Stream "QUIT" ∉ evs.
Proof.
  apply (console_loop_quit (H := sample_builtins) (H0 := scripted_runtime)
           "QUIT" [payload_paris] [] []).
  reflexivity.
Defined.


Lemma process_chunks_empty_tool_calls_witness :
  show_message (H := sample_builtins) (calling []) [] = ([], Ok tt)
  /\ process_chunks (H := sample_builtins) (agent_chunk [calling []]) [] = ([], Ok tt).
Proof.
  apply (process_chunks_empty_tool_calls (H := sample_builtins)
           (agent_chunk [calling []]) {[ "messages" := [calling []] ]}
           (calling []) []).
  - reflexivity.
  - reflexivity.
  - reflexivity.
Defined.


(** ** The further properties at concrete inputs *)



Lemma process_chunks_missing_messages_witness :
  process_chunks (H := sample_builtins) {[ "agent" := ∅ ]} []
  = ([], Raise (KeyError "messages")).
Proof.
  apply (process_chunks_missing_messages (H := sample_builtins)
           {[ "agent" := ∅ ]} ∅ []).
  - reflexivity.
  - reflexivity.
Defined.



Lemma console_loop_normal_exit_witness :
  exists pre q post evs,
    [payload_paris; "Quit"; "hello"] = pre ++ q :: post
    /\ quit_ignoring_case q = true
    /\ Forall (fun l => quit_ignoring_case l = false) pre
    /\ (console_loop (H := sample_builtins) (H0 := scripted_runtime)
          [payload_paris; "Quit"; "hello"] [] []).1
       = [] ++ evs ++ [RichPrint farewell (Some "black on white")].
Proof.
  apply (console_loop_normal_exit (H := sample_builtins) (H0 := scripted_runtime)
           [payload_paris; "Quit"; "hello"] [] []).
  reflexivity.
Defined.

Lemma console_loop_ignores_after_quit_witness :
  console_loop (H := sample_builtins) (H0 := scripted_runtime)
    ([payload_paris] ++ "Quit" :: ["hello"; payload_cut]) [] []
  = console_loop (H := sample_builtins) (H0 := scripted_runtime)
      ([payload_paris] ++ ["Quit"]) [] [].
Proof.
  apply (console_loop_ignores_after_quit (H := sample_builtins)
           (H0 := scripted_runtime) [payload_paris] ["hello"; payload_cut]
           "Quit" [] []).
  reflexivity.
Defined.

Lemma console_loop_passes_line_verbatim_witness :
  exists evs r,
    console_loop (H := sample_builtins) (H0 := scripted_runtime)
      ("" :: ["quit"]) [] []
    = ([] ++ Input prompt :: Stream "" :: evs, r).
Proof.
  apply (console_loop_passes_line_verbatim (H := sample_builtins)
           (H0 := scripted_runtime) "" ["quit"] [] []).
  reflexivity.
Defined.


